(** * Shark: the cblas [trmv] binding and the [Normalizer] model

    A shallow embedding of

    - [include/shark/LinAlg/BLAS/kernels/cblas/trmv.hpp]: the typed [trmv]
      overloads over the native [cblas_?trmv] entry points, the template
      adapter [trmv<upper,unit>(A, x, std::true_type)] and the compile-time
      trait [has_optimized_trmv];
    - [include/shark/Models/Normalizer.h]: the diagonal affine model.

    Runtime code is written in a small state-and-failure monad; what C++
    decides at compile time (template specialisation, overload resolution)
    is a total function on reified type tags, with [None] standing for an
    instantiation that does not compile. *)

From Stdlib Require Import ZArith List Bool Lia Floats.
From stdpp Require Import base option list strings.
Import ListNotations.

Local Open Scope Z_scope.

(** ** Execution monad *)

(** How a call ends: normally with a value, in the abort of a failed
    [SIZE_CHECK], or in the undefined behaviour of a native routine that was
    handed arguments it cannot serve. *)
Inductive outcome (A : Type) : Type :=
| Done (a : A)
| Aborted
| Undefined.

Arguments Done {A} a.
Arguments Aborted {A}.
Arguments Undefined {A}.

(** A computation over a mutable state [S]: the state it leaves is observable
    also when it does not end normally. *)
Definition exec (S A : Type) : Type := S -> outcome A * S.

Definition ret {S A : Type} (a : A) : exec S A := fun s => (Done a, s).

Definition bind {S A B : Type} (c : exec S A) (k : A -> exec S B) : exec S B :=
  fun s =>
    match c s with
    | (Done a, s') => k a s'
    | (Aborted, s') => (Aborted, s')
    | (Undefined, s') => (Undefined, s')
    end.

Definition get {S : Type} : exec S S := fun s => (Done s, s).

Definition put {S : Type} (s : S) : exec S unit := fun _ => (Done tt, s).

Definition abort {S A : Type} : exec S A := fun s => (Aborted, s).

Declare Scope exec_scope.
Delimit Scope exec_scope with exec.
Notation "x <- c ;; k" := (bind c (fun x => k))
  (at level 100, c at next level, right associativity) : exec_scope.
Notation "c ;; k" := (bind c (fun _ => k))
  (at level 100, right associativity) : exec_scope.

(** Modelled from the spec: the [SIZE_CHECK] macro, defined outside the two
    files; a violated shape precondition is "signaled via an immediate
    abort-style assertion; never recovered". *)
Definition SIZE_CHECK {S : Type} (cond : bool) : exec S unit :=
  if cond then ret tt else abort.

(** ** Trait tags of the container library *)

(** Modelled from the spec: the storage-kind tag of a container type,
    declared by the container library: "dense vs. other". *)
Inductive storage_tag : Type :=
| dense_tag
| other_storage_tag (name : string).

(** Element types: the two real kinds the binding names, [std::complex<T>]
    over any element type, and every other type by name. *)
Inductive value_type : Type :=
| cpp_float
| cpp_double
| std_complex (T : value_type)
| cpp_other (name : string).

(** Modelled from the spec: the orientation tag of a matrix type. *)
Inductive orientation : Type :=
| row_major
| column_major.

(** What the templates read off an operand type [M]:
    [M::storage_type::storage_tag], [M::value_type], [M::orientation]. *)
Record container_type : Type := {
  storage_tag_of : storage_tag;
  value_type_of : value_type;
  orientation_of : orientation
}.

(** ** The compile-time predicate (trmv.hpp, lines 124-165) *)

(** The primary template answers [std::false_type]; the four full
    specialisations, in the order of the file, answer [std::true_type]. *)
Definition optimized_trmv_detail
  (Storage1 Storage2 : storage_tag) (T1 T2 : value_type) : bool :=
  match Storage1, Storage2, T1, T2 with
  | dense_tag, dense_tag, cpp_double, cpp_double => true
  | dense_tag, dense_tag, cpp_float, cpp_float => true
  | dense_tag, dense_tag, std_complex cpp_double, std_complex cpp_double => true
  | dense_tag, dense_tag, std_complex cpp_float, std_complex cpp_float => true
  | _, _, _, _ => false
  end.

Definition has_optimized_trmv (M1 M2 : container_type) : bool :=
  optimized_trmv_detail
    (storage_tag_of M1) (storage_tag_of M2)
    (value_type_of M1) (value_type_of M2).

(** The four element types the native backend serves. *)
Definition blas_value_types : list value_type :=
  [cpp_float; cpp_double; std_complex cpp_float; std_complex cpp_double].

(** ** The native call contract *)

(** The enumerations of the cblas header. *)
Inductive CBLAS_ORDER : Type := CblasRowMajor | CblasColMajor.
Inductive CBLAS_UPLO : Type := CblasUpper | CblasLower.
Inductive CBLAS_TRANSPOSE : Type := CblasNoTrans | CblasTrans | CblasConjTrans.
Inductive CBLAS_DIAG : Type := CblasNonUnit | CblasUnit.

(** The four native entry points. *)
Inductive cblas_routine : Type :=
| cblas_strmv
| cblas_dtrmv
| cblas_ctrmv
| cblas_ztrmv.

(** A base pointer is an address counted in elements of the buffer's type;
    the [reinterpret_cast]s of the complex overloads leave it unchanged. *)
Definition pointer : Type := Z.

(** One call of a native entry point with everything it was handed. *)
Record cblas_call : Type := {
  call_routine : cblas_routine;
  call_Order : CBLAS_ORDER;
  call_uplo : CBLAS_UPLO;
  call_transA : CBLAS_TRANSPOSE;
  call_unit : CBLAS_DIAG;
  call_N : Z;
  call_A : pointer;
  call_lda : Z;
  call_X : pointer;
  call_incX : Z
}.

(** The native backend is a black box acting on the memory behind the
    operand views; [None] is its fatal failure. *)
Definition backend (heap : Type) : Type := cblas_call -> heap -> option heap.

(** What a run can touch: the memory, and the log of native calls issued. *)
Record world (heap : Type) : Type := {
  memory : heap;
  native_calls : list cblas_call
}.

Arguments memory {heap} w.
Arguments native_calls {heap} w.

Definition call_native {heap : Type} (native : backend heap) (c : cblas_call)
  : exec (world heap) unit :=
  fun w =>
    let logged := native_calls w ++ [c] in
    match native c (memory w) with
    | Some h => (Done tt, {| memory := h; native_calls := logged |})
    | None => (Undefined, {| memory := memory w; native_calls := logged |})
    end.

(** Conversion of an unsigned size to [int] (32 bits, two's complement). *)
Definition to_int (z : Z) : Z :=
  let r := z mod 2 ^ 32 in
  if r <? 2 ^ 31 then r else r - 2 ^ 32.

Definition INT_MAX : Z := 2 ^ 31 - 1.

(** ** The typed overloads (trmv.hpp, lines 40-99) *)

(** Overload resolution on the pointer types [T1 const*] and [T2*] of the two
    buffers: one overload per element type, none for any other pairing. *)
Definition trmv_overload (T1 T2 : value_type) : option cblas_routine :=
  match T1, T2 with
  | cpp_float, cpp_float => Some cblas_strmv
  | cpp_double, cpp_double => Some cblas_dtrmv
  | std_complex cpp_float, std_complex cpp_float => Some cblas_ctrmv
  | std_complex cpp_double, std_complex cpp_double => Some cblas_ztrmv
  | _, _ => None
  end.

(** The body every overload shares: forward the nine arguments to the
    entry point of its element type. *)
Definition trmv_typed {heap : Type} (native : backend heap)
  (routine : cblas_routine)
  (Order : CBLAS_ORDER) (uplo : CBLAS_UPLO) (transA : CBLAS_TRANSPOSE)
  (unit_ : CBLAS_DIAG) (N : Z) (A : pointer) (lda : Z) (X : pointer) (incX : Z)
  : exec (world heap) unit :=
  call_native native
    {| call_routine := routine; call_Order := Order; call_uplo := uplo;
       call_transA := transA; call_unit := unit_; call_N := N;
       call_A := A; call_lda := lda; call_X := X; call_incX := incX |}.

(** ** Operand views *)

Record dense_matrix_storage : Type := {
  mat_values : pointer;
  leading_dimension : Z
}.

Record dense_vector_storage : Type := {
  vec_values : pointer;
  stride : Z
}.

(** A matrix operand: its type's tags, its two sizes ([std::size_t]) and the
    descriptor [raw_storage()] returns. *)
Record matrix_expression : Type := {
  MatA : container_type;
  size1 : Z;
  size2 : Z;
  mat_raw_storage : dense_matrix_storage
}.

Record vector_expression : Type := {
  VectorX : container_type;
  size : Z;
  vec_raw_storage : dense_vector_storage
}.

(** Modelled from the spec: [storage_order<Orientation>::value], declared in
    the cblas include header: "map the library's orientation flag
    (row-major/column-major) to the native routine's order enumeration". *)
Definition storage_order (o : orientation) : CBLAS_ORDER :=
  match o with
  | row_major => CblasRowMajor
  | column_major => CblasColMajor
  end.

(** ** The template adapter (trmv.hpp, lines 101-122) *)

(** [trmv<upper, unit>(A, x, std::true_type)]. The instantiation exists when
    the call in its body finds an overload. The dimension is cast to [int]
    explicitly; the leading dimension and the stride reach [int] parameters
    and are converted the same way. *)
Definition trmv {heap : Type} (native : backend heap) (upper unit_ : bool)
  (A : matrix_expression) (x : vector_expression)
  : option (exec (world heap) unit) :=
  match trmv_overload (value_type_of (MatA A)) (value_type_of (VectorX x)) with
  | None => None
  | Some routine =>
    Some (
      SIZE_CHECK (size x =? size2 A) ;;
      SIZE_CHECK (size2 A =? size1 A) ;;
      let n := size1 A in
      let cblasUnit := if unit_ then CblasUnit else CblasNonUnit in
      let cblasUplo := if upper then CblasUpper else CblasLower in
      let stor_ord := storage_order (orientation_of (MatA A)) in
      let storageA := mat_raw_storage A in
      let storagex := vec_raw_storage x in
      trmv_typed native routine stor_ord cblasUplo CblasNoTrans cblasUnit (to_int n)
        (mat_values storageA)
        (to_int (leading_dimension storageA))
        (vec_values storagex)
        (to_int (stride storagex)))%exec
  end.

(** ** Element arithmetic *)

(** What a kernel needs of an element type. [s_conj] is the identity on the
    real types. *)
Class Scalar (T : Type) : Type := {
  s_zero : T;
  s_one : T;
  s_add : T -> T -> T;
  s_mul : T -> T -> T;
  s_conj : T -> T
}.

(** [double]: IEEE 754 binary64. *)
#[export] Instance double_Scalar : Scalar float := {
  s_zero := 0%float;
  s_one := 1%float;
  s_add := PrimFloat.add;
  s_mul := PrimFloat.mul;
  s_conj := fun a => a
}.

(** Exact integers, for arguments that do not depend on rounding. *)
#[export] Instance Z_Scalar : Scalar Z := {
  s_zero := 0;
  s_one := 1;
  s_add := Z.add;
  s_mul := Z.mul;
  s_conj := fun a => a
}.

(** ** The native routine, as its contract describes it *)

(** The element at address [p] of a buffer memory. *)
Definition load {T : Type} (h : list T) (p : pointer) : option T :=
  if p <? 0 then None else h !! Z.to_nat p.

Definition store {T : Type} (h : list T) (p : pointer) (v : T) : list T :=
  <[Z.to_nat p := v]> h.

(** The indices [0 .. n-1]. *)
Definition indices (n : Z) : list Z := map Z.of_nat (seq 0 (Z.to_nat n)).

(** Address of the stored entry (i, j) under the call's order and leading
    dimension. *)
Definition entry_address (c : cblas_call) (i j : Z) : pointer :=
  match call_Order c with
  | CblasRowMajor => call_A c + i * call_lda c + j
  | CblasColMajor => call_A c + i + j * call_lda c
  end.

(** Address of element [i] of the vector; a negative increment walks the
    buffer backwards, as in the reference BLAS. *)
Definition vector_address (X : pointer) (incX n i : Z) : pointer :=
  if 0 <? incX then X + i * incX else X + (n - 1 - i) * (- incX).

(** Whether the stored entry (i, j) lies in the triangle the call names. *)
Definition in_triangle (uplo : CBLAS_UPLO) (i j : Z) : bool :=
  match uplo with
  | CblasUpper => i <=? j
  | CblasLower => j <=? i
  end.

(** The stored triangular matrix at an entry of its triangle: with
    [CblasUnit] the diagonal is one and is not read. *)
Definition triangle_entry {T : Type} `{Scalar T} (c : cblas_call) (h : list T)
  (i j : Z) : option T :=
  match call_unit c with
  | CblasUnit => if i =? j then Some s_one else load h (entry_address c i j)
  | CblasNonUnit => load h (entry_address c i j)
  end.

(** Entry (i, j) of op(A), where it is not structurally zero. *)
Definition op_in_triangle (c : cblas_call) (i j : Z) : bool :=
  match call_transA c with
  | CblasNoTrans => in_triangle (call_uplo c) i j
  | CblasTrans | CblasConjTrans => in_triangle (call_uplo c) j i
  end.

Definition op_entry {T : Type} `{Scalar T} (c : cblas_call) (h : list T)
  (i j : Z) : option T :=
  match call_transA c with
  | CblasNoTrans => triangle_entry c h i j
  | CblasTrans => triangle_entry c h j i
  | CblasConjTrans => s_conj <$> triangle_entry c h j i
  end.

(** Row [i] of op(A) times the old vector: only entries of the triangle are
    read and multiplied. *)
Definition row_product {T : Type} `{Scalar T} (c : cblas_call) (h : list T)
  (xs : list T) (i : Z) : option T :=
  fold_left
    (fun acc j =>
       match acc with
       | None => None
       | Some s =>
         if op_in_triangle c i j then
           match op_entry c h i j, xs !! Z.to_nat j with
           | Some a, Some xj => Some (s_add s (s_mul a xj))
           | _, _ => None
           end
         else Some s
       end)
    (indices (call_N c)) (Some s_zero).

(** The elements of a strided vector, in index order. *)
Definition load_vector {T : Type} (h : list T) (X : pointer) (incX n : Z)
  : option (list T) :=
  mapM (fun i => load h (vector_address X incX n i)) (indices n).

Definition store_vector {T : Type} (h : list T) (X : pointer) (incX n : Z)
  (vs : list T) : list T :=
  fold_left (fun h' iv => store h' (vector_address X incX n (fst iv)) (snd iv))
    (combine (indices n) vs) h.

(** Modelled from the spec: the native entry points [cblas_?trmv] of the
    external backend: each "accepts an order flag, an upper/lower flag, a
    transpose flag, a unit-diagonal flag, a dimension, a matrix base pointer
    with leading dimension, and a vector base pointer with stride; performs
    an in-place triangular multiply of the vector by the matrix", x := A·x,
    where "entries outside the specified triangle are treated as zero and
    never read" and with the unit-diagonal flag "diagonal entries are treated
    as 1 and never read". Illegal arguments (negative dimension, leading
    dimension below max(1, N), zero increment) and accesses outside the
    memory are its fatal failure. The four entry points differ in the element
    type only, which is the memory's here. *)
Definition cblas_trmv {T : Type} `{Scalar T} : backend (list T) :=
  fun c h =>
    let n := call_N c in
    if (n <? 0) || (call_lda c <? Z.max 1 n) || (call_incX c =? 0) then None
    else
      match load_vector h (call_X c) (call_incX c) n with
      | None => None
      | Some xs =>
        match mapM (row_product c h xs) (indices n) with
        | None => None
        | Some ys => Some (store_vector h (call_X c) (call_incX c) n ys)
        end
      end.

(** The elements of a vector operand, read through its descriptor. *)
Definition read_vector {T : Type} (h : list T) (x : vector_expression)
  : option (list T) :=
  load_vector h (vec_values (vec_raw_storage x)) (stride (vec_raw_storage x))
    (size x).

(** ** Vectors and batches of the linear algebra library *)

(** Modelled from the spec: the vector and matrix expressions [Normalizer]
    uses ([subrange], [|], [repeat], the elementwise [*], [resize],
    [noalias(..) =] and [noalias(..) +=]), which live in the container
    library, read so that [eval] is the "output = A·input + b" with A
    diagonal of the model's documentation. A vector is the list of its
    elements ([|] is [++]); "mismatched dimensions" are "signaled via an
    immediate abort-style assertion", a [SIZE_CHECK] like any other. *)
Definition subrange {S T : Type} (v : list T) (start stop : nat)
  : exec S (list T) :=
  (SIZE_CHECK ((start <=? stop)%nat && (stop <=? length v)%nat) ;;
   ret (take (stop - start)%nat (drop start v)))%exec.

(** [noalias(target) = e] on vectors: the target keeps its size. *)
Definition noalias_assign {S T : Type} (target e : list T) : exec S (list T) :=
  (SIZE_CHECK (length target =? length e)%nat ;; ret e)%exec.

(** A batch: one row per point, [size2] elements per row. *)
Record matrix (T : Type) : Type := {
  elements : list (list T);
  msize2 : nat
}.

Arguments elements {T} m.
Arguments msize2 {T} m.

Definition msize1 {T : Type} (m : matrix T) : nat := length (elements m).

Definition well_shaped {T : Type} (m : matrix T) : Prop :=
  Forall (fun row => length row = msize2 m) (elements m).

Definition same_shape {T : Type} (a b : matrix T) : bool :=
  (msize1 a =? msize1 b)%nat && (msize2 a =? msize2 b)%nat.

(** [repeat(v, rows)]: the matrix whose every row is [v]. *)
Definition repeat {T : Type} (v : list T) (rows : nat) : matrix T :=
  {| elements := replicate rows v; msize2 := length v |}.

Definition elementwise {T : Type} (f : T -> T -> T) (a b : matrix T) : matrix T :=
  {| elements := zip_with (zip_with f) (elements a) (elements b);
     msize2 := msize2 a |}.

(** [a * b] on matrices is the elementwise product. *)
Definition matrix_times {S T : Type} `{Scalar T} (a b : matrix T)
  : exec S (matrix T) :=
  (SIZE_CHECK (same_shape a b) ;; ret (elementwise s_mul a b))%exec.

(** [m.resize(rows, columns)]; the contents are overwritten right after. *)
Definition resize {T : Type} `{Scalar T} (rows columns : nat)
  : exec (matrix T) unit :=
  put {| elements := replicate rows (replicate columns s_zero);
         msize2 := columns |}.

Definition noalias_assign_matrix {T : Type} (e : matrix T)
  : exec (matrix T) unit :=
  (target <- get ;; SIZE_CHECK (same_shape target e) ;; put e)%exec.

Definition noalias_plus_assign_matrix {T : Type} `{Scalar T} (e : matrix T)
  : exec (matrix T) unit :=
  (target <- get ;;
   SIZE_CHECK (same_shape target e) ;;
   put (elementwise s_add target e))%exec.

(** ** The Normalizer model (Normalizer.h) *)

Record Normalizer (T : Type) : Type := {
  m_A : list T;
  m_b : list T;
  m_hasOffset : bool
}.

Arguments m_A {T} n.
Arguments m_b {T} n.
Arguments m_hasOffset {T} n.

(** Construction from matrix: [Normalizer(RealVector diagonal)]. *)
Definition Normalizer_of_diagonal {T : Type} (diagonal : list T) : Normalizer T :=
  {| m_A := diagonal; m_b := []; m_hasOffset := false |}.

(** Construction from matrix and vector:
    [Normalizer(RealVector diagonal, RealVector vector)]. *)
Definition Normalizer_of_diagonal_and_vector {T : Type}
  (diagonal vector : list T) : Normalizer T :=
  {| m_A := diagonal; m_b := vector; m_hasOffset := true |}.

Definition hasOffset {T : Type} (self : Normalizer T) : bool := m_hasOffset self.

Definition diagonal {T : Type} (self : Normalizer T) : list T := m_A self.

Definition offset {T : Type} (self : Normalizer T) : list T := m_b self.

Definition inputSize {T : Type} (self : Normalizer T) : nat := length (m_A self).

Definition outputSize {T : Type} (self : Normalizer T) : nat := length (m_A self).

Definition parameterVector {T : Type} (self : Normalizer T) : list T :=
  if hasOffset self then m_A self ++ m_b self else m_A self.

Definition numberOfParameters {T : Type} (self : Normalizer T) : nat :=
  if m_hasOffset self then (length (m_A self) + length (m_b self))%nat
  else length (m_A self).

Definition set_m_A {T : Type} (v : list T) : exec (Normalizer T) unit :=
  fun self =>
    (Done tt, {| m_A := v; m_b := m_b self; m_hasOffset := m_hasOffset self |}).

Definition set_m_b {T : Type} (v : list T) : exec (Normalizer T) unit :=
  fun self =>
    (Done tt, {| m_A := m_A self; m_b := v; m_hasOffset := m_hasOffset self |}).

Definition setParameterVector {T : Type} (newParameters : list T)
  : exec (Normalizer T) unit :=
  (self <- get ;;
   SIZE_CHECK (length newParameters =? numberOfParameters self)%nat ;;
   let dim := length (m_A self) in
   a <- subrange newParameters 0 dim ;;
   a' <- noalias_assign (m_A self) a ;;
   set_m_A a' ;;
   self' <- get ;;
   if hasOffset self' then
     b <- subrange newParameters dim (2 * dim) ;;
     b' <- noalias_assign (m_b self') b ;;
     set_m_b b'
   else ret tt)%exec.

(** [eval(input, output)]: the model is read, the output batch is the
    state. *)
Definition eval {T : Type} `{Scalar T} (self : Normalizer T) (input : matrix T)
  : exec (matrix T) unit :=
  (SIZE_CHECK (msize1 input =? length (m_A self))%nat ;;
   resize (msize1 input) (msize2 input) ;;
   product <- matrix_times input (repeat (m_A self) (msize1 input)) ;;
   noalias_assign_matrix product ;;
   if hasOffset self then
     noalias_plus_assign_matrix (repeat (m_b self) (msize1 input))
   else ret tt)%exec.

(** The affine map the model stands for, on one point: A x + b with A
    diagonal, or A x without offset. *)
Definition affine_row {T : Type} `{Scalar T} (self : Normalizer T) (row : list T)
  : list T :=
  if hasOffset self then zip_with s_add (zip_with s_mul row (m_A self)) (m_b self)
  else zip_with s_mul row (m_A self).

(** ** Restructuring and persistence of the Normalizer *)

Definition set_m_hasOffset {T : Type} (flag : bool) : exec (Normalizer T) unit :=
  fun self =>
    (Done tt, {| m_A := m_A self; m_b := m_b self; m_hasOffset := flag |}).

(** Copy constructor. *)
Definition Normalizer_copy {T : Type} (model : Normalizer T) : Normalizer T :=
  {| m_A := m_A model; m_b := m_b model; m_hasOffset := m_hasOffset model |}.

(** [setStructure(RealVector const& diagonal)]: plain assignments, the
    offset vector is left as it is. *)
Definition setStructure_diagonal {T : Type} (diagonal : list T)
  : exec (Normalizer T) unit :=
  (set_m_A diagonal ;;
   set_m_hasOffset false)%exec.

(** [setStructure(std::size_t dimension, bool hasOffset)]. The vector's
    [resize] belongs to the container library and is an argument here; all
    that is asked of it is the size of what it returns. *)
Definition setStructure_dimension {T : Type} (resize_vector : nat -> list T -> list T)
  (dimension : nat) (hasOffset : bool) : exec (Normalizer T) unit :=
  (self <- get ;;
   set_m_A (resize_vector dimension (m_A self)) ;;
   set_m_hasOffset hasOffset ;;
   if hasOffset then
     self' <- get ;;
     set_m_b (resize_vector dimension (m_b self'))
   else ret tt)%exec.


(** [eval(input, output, state)] forwards to [eval(input, output)]. *)
Definition eval_with_state {T : Type} `{Scalar T} (self : Normalizer T)
  (input : matrix T) (state : unit) : exec (matrix T) unit :=
  eval self input.

(** An archive is the sequence of the items saved to it: [archive & x] on an
    output archive appends [x], on an input archive takes the next item,
    which has to be of the type of [x]. *)
Inductive archive_item (T : Type) : Type :=
| item_vector (v : list T)
| item_bool (b : bool).

Arguments item_vector {T} v.
Arguments item_bool {T} b.

Definition save {T : Type} (x : archive_item T) : exec (list (archive_item T)) unit :=
  fun archive => (Done tt, archive ++ [x]).

Definition load_vector_item {T : Type} (archive : list (archive_item T))
  : option (list T * list (archive_item T)) :=
  match archive with
  | item_vector v :: rest => Some (v, rest)
  | _ => None
  end.

Definition load_bool_item {T : Type} (archive : list (archive_item T))
  : option (bool * list (archive_item T)) :=
  match archive with
  | item_bool b :: rest => Some (b, rest)
  | _ => None
  end.

(** [write(OutArchive&)]: the three members in the order of their
    declaration. *)
Definition write {T : Type} (self : Normalizer T)
  : exec (list (archive_item T)) unit :=
  (save (item_vector (m_A self)) ;;
   save (item_vector (m_b self)) ;;
   save (item_bool (m_hasOffset self)))%exec.

(** How a [read] ends: with all three members loaded, or in the exception of
    an archive that does not hold the item asked for. *)
Inductive read_outcome : Type :=
| read_done
| archive_exception.

(** [read(InArchive&)]: the three members are overwritten in place, one
    after the other, in the order of [write]; when the archive fails at an
    item, the members loaded before it keep their new values. The result is
    how the call ended, the model and what is left of the archive. *)
Definition read {T : Type} (archive : list (archive_item T))
  (self : Normalizer T)
  : read_outcome * (Normalizer T * list (archive_item T)) :=
  match load_vector_item archive with
  | None => (archive_exception, (self, archive))
  | Some (A, archive1) =>
    let self1 :=
      {| m_A := A; m_b := m_b self; m_hasOffset := m_hasOffset self |} in
    match load_vector_item archive1 with
    | None => (archive_exception, (self1, archive1))
    | Some (b, archive2) =>
      let self2 :=
        {| m_A := m_A self1; m_b := b; m_hasOffset := m_hasOffset self1 |} in
      match load_bool_item archive2 with
      | None => (archive_exception, (self2, archive2))
      | Some (flag, archive3) =>
        (read_done,
         ({| m_A := m_A self2; m_b := m_b self2; m_hasOffset := flag |},
          archive3))
      end
    end
  end.

(** The size a model's offset has to have for its parameters to be set. *)
Definition offset_fits {T : Type} (self : Normalizer T) : Prop :=
  hasOffset self = true -> length (offset self) = length (diagonal self).

(** [std::vector]'s way to resize: keep what fits, fill with [fill]. *)
Definition resize_keeping {T : Type} (fill : T) (n : nat) (v : list T) : list T :=
  take n v ++ replicate (n - length v)%nat fill.

(** ** Sample operands *)

Definition dense (T : value_type) (o : orientation) : container_type :=
  {| storage_tag_of := dense_tag; value_type_of := T; orientation_of := o |}.

(** A square dense matrix of doubles stored at address 0 with its dimension
    as leading dimension. *)
Definition square_matrix (o : orientation) (n : Z) : matrix_expression :=
  {| MatA := dense cpp_double o; size1 := n; size2 := n;
     mat_raw_storage := {| mat_values := 0; leading_dimension := n |} |}.

(** A contiguous dense vector of doubles stored at address [p]. *)
Definition dense_vector (p : pointer) (n : Z) : vector_expression :=
  {| VectorX := dense cpp_double row_major; size := n;
     vec_raw_storage := {| vec_values := p; stride := 1 |} |}.

(** The matrix [[2,3],[0,4]] followed by the vector [1,1]: row by row, and
    column by column. *)
Definition memory_row_major : list float := [2; 3; 0; 4; 1; 1]%float.

Definition memory_column_major : list float := [2; 0; 3; 4; 1; 1]%float.

Definition fresh {heap : Type} (h : heap) : world heap :=
  {| memory := h; native_calls := [] |}.

(** * Properties *)

(** ** The trait predicate *)

Lemma optimized_trmv_detail_true (Storage1 Storage2 : storage_tag)
  (T1 T2 : value_type) :
  optimized_trmv_detail Storage1 Storage2 T1 T2 = true <->
  Storage1 = dense_tag /\ Storage2 = dense_tag /\ T1 = T2 /\
  In T1 blas_value_types.
Proof.
  split.
  - destruct Storage1, Storage2; try discriminate;
      destruct T1 as [ | | [ | | ? | ? ] | ? ]; try discriminate;
      destruct T2 as [ | | [ | | ? | ? ] | ? ]; try discriminate;
      intros _; repeat split; simpl; auto.
  - intros (-> & -> & <- & Hin).
    simpl in Hin.
    destruct Hin as [<- | [<- | [<- | [<- | []]]]]; reflexivity.
Qed.

(** C1. The trait [has_optimized_trmv] (through [optimized_trmv_detail])
    answers true exactly when both operands have dense storage and the same
    element type, one of float, double, std::complex<float> and
    std::complex<double>; every other combination, with the unspecialised
    default, answers false. A true answer never sends to the native path a
    pairing the typed overloads do not serve. *)
Theorem has_optimized_trmv_four_combinations :
  (forall M1 M2 : container_type,
      has_optimized_trmv M1 M2 = true <->
      storage_tag_of M1 = dense_tag /\ storage_tag_of M2 = dense_tag /\
      value_type_of M1 = value_type_of M2 /\
      In (value_type_of M1) blas_value_types) /\
  (forall M1 M2 : container_type,
      has_optimized_trmv M1 M2 = false <->
      ~ (storage_tag_of M1 = dense_tag /\ storage_tag_of M2 = dense_tag /\
         value_type_of M1 = value_type_of M2 /\
         In (value_type_of M1) blas_value_types)) /\
  (forall (Storage1 Storage2 : storage_tag) (T1 T2 : value_type),
      optimized_trmv_detail Storage1 Storage2 T1 T2 = true <->
      Storage1 = dense_tag /\ Storage2 = dense_tag /\ T1 = T2 /\
      In T1 blas_value_types) /\
  (forall M1 M2 : container_type,
      has_optimized_trmv M1 M2 = true ->
      exists routine,
        trmv_overload (value_type_of M1) (value_type_of M2) = Some routine).
Proof.
  split; [| split; [| split]].
  - intros M1 M2. apply optimized_trmv_detail_true.
  - intros M1 M2. unfold has_optimized_trmv.
    rewrite <- optimized_trmv_detail_true.
    destruct (optimized_trmv_detail _ _ _ _); split; congruence.
  - apply optimized_trmv_detail_true.
  - intros M1 M2 Htrue.
    apply optimized_trmv_detail_true in Htrue.
    destruct Htrue as (_ & _ & <- & Hin). simpl in Hin.
    destruct Hin as [<- | [<- | [<- | [<- | []]]]]; eexists; reflexivity.
Qed.

(** ** The adapter *)

Section Adapter.

Context {heap : Type} (native : backend heap).

Lemma to_int_small (z : Z) : 0 <= z <= INT_MAX -> to_int z = z.
Proof.
  unfold to_int, INT_MAX. intros Hz.
  rewrite Z.mod_small by lia.
  destruct (Z.ltb_spec z (2 ^ 31)); lia.
Qed.

Lemma call_native_logs (c : cblas_call) (w : world heap) :
  native_calls (snd (call_native native c w)) = native_calls w ++ [c] /\
  fst (call_native native c w) <> Aborted.
Proof.
  unfold call_native. destruct (native c (memory w)); simpl; split; congruence.
Qed.

(** With an overload in reach and the two shape checks passing, the adapter
    is the one native call. *)
Lemma trmv_shape_ok (upper unit_ : bool) (A : matrix_expression)
  (x : vector_expression) (r : cblas_routine) :
  trmv_overload (value_type_of (MatA A)) (value_type_of (VectorX x)) = Some r ->
  size x = size2 A -> size2 A = size1 A ->
  exists body, trmv native upper unit_ A x = Some body /\
    forall w, body w =
      call_native native
        {| call_routine := r;
           call_Order := storage_order (orientation_of (MatA A));
           call_uplo := if upper then CblasUpper else CblasLower;
           call_transA := CblasNoTrans;
           call_unit := if unit_ then CblasUnit else CblasNonUnit;
           call_N := to_int (size1 A);
           call_A := mat_values (mat_raw_storage A);
           call_lda := to_int (leading_dimension (mat_raw_storage A));
           call_X := vec_values (vec_raw_storage x);
           call_incX := to_int (stride (vec_raw_storage x)) |} w.
Proof.
  intros Hr Hx HA. unfold trmv. rewrite Hr.
  eexists. split; [reflexivity |].
  intros w. unfold bind, SIZE_CHECK, ret, trmv_typed.
  rewrite Hx, HA, !Z.eqb_refl. reflexivity.
Qed.

(** With a shape check failing, the adapter stops at it. *)
Lemma trmv_shape_bad (upper unit_ : bool) (A : matrix_expression)
  (x : vector_expression) (body : exec (world heap) unit) (w : world heap) :
  trmv native upper unit_ A x = Some body ->
  size x <> size2 A \/ size2 A <> size1 A ->
  body w = (Aborted, w).
Proof.
  unfold trmv. destruct (trmv_overload _ _); [| discriminate].
  intros [= <-] Hbad. unfold bind, SIZE_CHECK, ret, abort.
  destruct (Z.eqb_spec (size x) (size2 A)); [| reflexivity].
  destruct (Z.eqb_spec (size2 A) (size1 A)); [| reflexivity].
  tauto.
Qed.

Lemma trmv_overload_table (T : value_type) (r : cblas_routine) :
  In (T, r)
     [(cpp_float, cblas_strmv); (cpp_double, cblas_dtrmv);
      (std_complex cpp_float, cblas_ctrmv);
      (std_complex cpp_double, cblas_ztrmv)] ->
  trmv_overload T T = Some r.
Proof.
  simpl. intros [[= <- <-] | [[= <- <-] | [[= <- <-] | [[= <- <-] | []]]]];
    reflexivity.
Qed.

(** C2. For an invocation of [trmv<upper,unit>(A, x, std::true_type)] on
    operands of one of the four element types, the adapter maps upper to
    CblasUpper else CblasLower, unit to CblasUnit else CblasNonUnit and the
    matrix orientation to the native order, and issues exactly one call, to
    the entry point of the element type, with the dimension and the storage
    descriptors of the two operands (base pointer with leading dimension,
    base pointer with stride). *)
Theorem trmv_issues_one_typed_call (upper unit_ : bool)
  (A : matrix_expression) (x : vector_expression)
  (T : value_type) (r : cblas_routine) (w : world heap) :
  In (T, r)
     [(cpp_float, cblas_strmv); (cpp_double, cblas_dtrmv);
      (std_complex cpp_float, cblas_ctrmv);
      (std_complex cpp_double, cblas_ztrmv)] ->
  value_type_of (MatA A) = T -> value_type_of (VectorX x) = T ->
  size x = size2 A -> size2 A = size1 A ->
  exists body, trmv native upper unit_ A x = Some body /\
    fst (body w) <> Aborted /\
    native_calls (snd (body w)) =
    native_calls w ++
      [ {| call_routine := r;
           call_Order :=
             match orientation_of (MatA A) with
             | row_major => CblasRowMajor
             | column_major => CblasColMajor
             end;
           call_uplo := if upper then CblasUpper else CblasLower;
           call_transA := CblasNoTrans;
           call_unit := if unit_ then CblasUnit else CblasNonUnit;
           call_N := to_int (size1 A);
           call_A := mat_values (mat_raw_storage A);
           call_lda := to_int (leading_dimension (mat_raw_storage A));
           call_X := vec_values (vec_raw_storage x);
           call_incX := to_int (stride (vec_raw_storage x)) |} ].
Proof.
  intros Hin HTA HTx Hx HA.
  apply trmv_overload_table in Hin.
  destruct (trmv_shape_ok upper unit_ A x r) as (body & Hbody & Hrun);
    [rewrite HTA, HTx; exact Hin | exact Hx | exact HA |].
  exists body. split; [exact Hbody |].
  rewrite Hrun.
  destruct (call_native_logs
    {| call_routine := r;
       call_Order := storage_order (orientation_of (MatA A));
       call_uplo := if upper then CblasUpper else CblasLower;
       call_transA := CblasNoTrans;
       call_unit := if unit_ then CblasUnit else CblasNonUnit;
       call_N := to_int (size1 A);
       call_A := mat_values (mat_raw_storage A);
       call_lda := to_int (leading_dimension (mat_raw_storage A));
       call_X := vec_values (vec_raw_storage x);
       call_incX := to_int (stride (vec_raw_storage x)) |} w) as [Hlog Hok].
  split; [exact Hok |].
  rewrite Hlog. unfold storage_order. reflexivity.
Qed.

(** C3. Before any native call the adapter checks that the vector's size is
    the matrix's column count and that the matrix is square; when either
    fails the run ends in the abort of the check with no native call issued
    and the memory untouched. *)
Theorem trmv_shape_violation_aborts (upper unit_ : bool)
  (A : matrix_expression) (x : vector_expression)
  (body : exec (world heap) unit) (w : world heap) :
  trmv native upper unit_ A x = Some body ->
  size x <> size2 A \/ size2 A <> size1 A ->
  fst (body w) = Aborted /\
  native_calls (snd (body w)) = native_calls w /\
  memory (snd (body w)) = memory w.
Proof.
  intros Hbody Hbad.
  rewrite (trmv_shape_bad upper unit_ A x body w Hbody Hbad).
  repeat split.
Qed.

(** C4. On every invocation of the adapter, whatever the template
    parameters and the operands, the transpose argument handed to the
    native routine is CblasNoTrans: an invocation that passes the shape
    checks issues one native call and that call carries CblasNoTrans, an
    invocation that fails one issues none, and no call the adapter issues
    carries anything else. *)
Theorem trmv_passes_no_transpose (upper unit_ : bool)
  (A : matrix_expression) (x : vector_expression)
  (body : exec (world heap) unit) (w : world heap) :
  trmv native upper unit_ A x = Some body ->
  exists issued,
    native_calls (snd (body w)) = native_calls w ++ issued /\
    Forall (fun c => call_transA c = CblasNoTrans) issued /\
    (size x = size2 A -> size2 A = size1 A ->
     exists c, issued = [c] /\ call_transA c = CblasNoTrans) /\
    (size x <> size2 A \/ size2 A <> size1 A -> issued = []).
Proof.
  intros Hbody.
  destruct (Z.eq_dec (size x) (size2 A)) as [Hx | Hx];
    [destruct (Z.eq_dec (size2 A) (size1 A)) as [HA | HA] |].
  - pose proof Hbody as Hsome. unfold trmv in Hsome.
    destruct (trmv_overload _ _) as [r |] eqn:Hr; [| discriminate].
    destruct (trmv_shape_ok upper unit_ A x r Hr Hx HA) as (body' & Hbody' & Hrun).
    assert (body' = body) as -> by congruence.
    rewrite Hrun. eexists. split; [apply call_native_logs |].
    split; [constructor; [reflexivity | constructor] |].
    split.
    + intros _ _. eexists. split; reflexivity.
    + intros [Hbad | Hbad]; contradiction.
  - exists []. rewrite (trmv_shape_bad upper unit_ A x body w Hbody) by tauto.
    simpl. rewrite app_nil_r. split; [reflexivity |].
    split; [constructor |]. split; [intros _ ?; contradiction | reflexivity].
  - exists []. rewrite (trmv_shape_bad upper unit_ A x body w Hbody) by tauto.
    simpl. rewrite app_nil_r. split; [reflexivity |].
    split; [constructor |]. split; [intros ?; contradiction | reflexivity].
Qed.

(** C10. The dimension reaches the native entry point through an unchecked
    cast from std::size_t to int: for a square matrix of dimension at most
    2^31 - 1 the native dimension is the matrix dimension; the call is issued
    for any dimension, and at 2^31 the native routine receives -2^31. *)
Theorem trmv_dimension_cast (upper unit_ : bool)
  (A : matrix_expression) (x : vector_expression)
  (body : exec (world heap) unit) (w : world heap) :
  trmv native upper unit_ A x = Some body ->
  size x = size2 A -> size2 A = size1 A ->
  exists c,
    native_calls (snd (body w)) = native_calls w ++ [c] /\
    fst (body w) <> Aborted /\
    call_N c = to_int (size1 A) /\
    (0 <= size1 A <= 2 ^ 31 - 1 -> call_N c = size1 A) /\
    (size1 A = 2 ^ 31 -> call_N c = - 2 ^ 31).
Proof.
  intros Hbody Hx HA.
  pose proof Hbody as Hsome. unfold trmv in Hsome.
  destruct (trmv_overload _ _) as [r |] eqn:Hr; [| discriminate].
  destruct (trmv_shape_ok upper unit_ A x r Hr Hx HA) as (body' & Hbody' & Hrun).
  assert (body' = body) as -> by congruence.
  rewrite Hrun. eexists.
  split; [apply call_native_logs |].
  split; [apply call_native_logs |].
  simpl. split; [reflexivity |].
  split.
  - apply to_int_small.
  - intros ->. reflexivity.
Qed.

End Adapter.

(** ** The adapter on sample operands *)

Lemma trmv_issues_one_typed_call_witness :
  exists body,
    trmv cblas_trmv false true (square_matrix column_major 2) (dense_vector 4 2)
    = Some body /\
    fst (body (fresh memory_column_major)) <> Aborted /\
    native_calls (snd (body (fresh memory_column_major))) =
    [ {| call_routine := cblas_dtrmv; call_Order := CblasColMajor;
         call_uplo := CblasLower; call_transA := CblasNoTrans;
         call_unit := CblasUnit; call_N := 2; call_A := 0; call_lda := 2;
         call_X := 4; call_incX := 1 |} ].
Proof.
  apply (trmv_issues_one_typed_call cblas_trmv false true
           (square_matrix column_major 2) (dense_vector 4 2)
           cpp_double cblas_dtrmv (fresh memory_column_major)).
  - simpl. tauto.
  - reflexivity.
  - reflexivity.
  - reflexivity.
  - reflexivity.
Defined.

Lemma trmv_shape_violation_aborts_witness :
  exists body,
    trmv cblas_trmv true false (square_matrix row_major 3) (dense_vector 9 4)
    = Some body /\
    fst (body (fresh memory_row_major)) = Aborted /\
    native_calls (snd (body (fresh memory_row_major))) = [] /\
    memory (snd (body (fresh memory_row_major))) = memory_row_major.
Proof.
  eexists. split; [reflexivity |].
  apply (trmv_shape_violation_aborts cblas_trmv true false
           (square_matrix row_major 3) (dense_vector 9 4)).
  - reflexivity.
  - left. simpl. lia.
Defined.

Lemma trmv_passes_no_transpose_witness :
  exists body,
    trmv cblas_trmv true false (square_matrix row_major 2) (dense_vector 4 2)
    = Some body /\
    exists issued,
      native_calls (snd (body (fresh memory_row_major))) = [] ++ issued /\
      Forall (fun c => call_transA c = CblasNoTrans) issued /\
      (2 = 2 -> 2 = 2 ->
       exists c, issued = [c] /\ call_transA c = CblasNoTrans) /\
      (2 <> 2 \/ 2 <> 2 -> issued = []).
Proof.
  eexists. split; [reflexivity |].
  apply (trmv_passes_no_transpose cblas_trmv true false
           (square_matrix row_major 2) (dense_vector 4 2)).
  reflexivity.
Defined.

Lemma trmv_dimension_cast_witness :
  exists body,
    trmv cblas_trmv true false (square_matrix row_major 2) (dense_vector 4 2)
    = Some body /\
    exists c,
      native_calls (snd (body (fresh memory_row_major))) = [] ++ [c] /\
      fst (body (fresh memory_row_major)) <> Aborted /\
      call_N c = to_int 2 /\
      (0 <= 2 <= 2 ^ 31 - 1 -> call_N c = 2) /\
      (2 = 2 ^ 31 -> call_N c = - 2 ^ 31).
Proof.
  eexists. split; [reflexivity |].
  apply (trmv_dimension_cast cblas_trmv true false
           (square_matrix row_major 2) (dense_vector 4 2)).
  - reflexivity.
  - reflexivity.
  - reflexivity.
Defined.

(** At dimension 2^31 the adapter still calls, with a negative dimension
    and leading dimension, which the native routine refuses. *)
Remark trmv_dimension_cast_overflow :
  exists body,
    trmv cblas_trmv true false
      (square_matrix row_major (2 ^ 31)) (dense_vector 0 (2 ^ 31))
    = Some body /\
    body (fresh memory_row_major) =
    (Undefined,
     {| memory := memory_row_major;
        native_calls :=
          [ {| call_routine := cblas_dtrmv; call_Order := CblasRowMajor;
               call_uplo := CblasUpper; call_transA := CblasNoTrans;
               call_unit := CblasNonUnit; call_N := -2147483648;
               call_A := 0; call_lda := -2147483648;
               call_X := 0; call_incX := 1 |} ] |}).
Proof.
  eexists. split; [reflexivity |]. vm_compute. reflexivity.
Qed.

(** The orientation handed over decides how the buffer is read: the same
    row-by-row buffer under a column-major type is another matrix. *)
Remark trmv_orientation_matters :
  exists body,
    trmv cblas_trmv true false (square_matrix column_major 2) (dense_vector 4 2)
    = Some body /\
    read_vector (memory (snd (body (fresh memory_row_major))))
      (dense_vector 4 2) = Some [2; 4]%float.
Proof.
  eexists. split; [reflexivity |]. vm_compute. reflexivity.
Qed.

(** C5. For the upper triangular, non-unit-diagonal matrix [[2,3],[0,4]]
    stored row-major and the vector [1,1], trmv leaves [5,4] in the vector;
    for the same matrix stored column-major, with the orientation of its
    type set accordingly, it leaves the same [5,4]. *)
Theorem trmv_two_by_two_both_orientations :
  (exists body,
      trmv cblas_trmv true false (square_matrix row_major 2) (dense_vector 4 2)
      = Some body /\
      fst (body (fresh memory_row_major)) = Done tt /\
      read_vector (memory (snd (body (fresh memory_row_major))))
        (dense_vector 4 2) = Some [5; 4]%float) /\
  (exists body,
      trmv cblas_trmv true false (square_matrix column_major 2) (dense_vector 4 2)
      = Some body /\
      fst (body (fresh memory_column_major)) = Done tt /\
      read_vector (memory (snd (body (fresh memory_column_major))))
        (dense_vector 4 2) = Some [5; 4]%float).
Proof.
  split; (eexists; split; [reflexivity |]); split; vm_compute; reflexivity.
Qed.

(** ** Equations of the execution monad *)

Section ExecEquations.

Context {S A B : Type}.

Lemma bind_ret (a : A) (k : A -> exec S B) (s : S) :
  bind (ret a) k s = k a s.
Proof. reflexivity. Qed.

Lemma bind_get (k : S -> exec S B) (s : S) :
  bind get k s = k s s.
Proof. reflexivity. Qed.

Lemma bind_assoc {C : Type} (c : exec S A) (k1 : A -> exec S B)
  (k2 : B -> exec S C) (s : S) :
  bind (bind c k1) k2 s = bind c (fun a => bind (k1 a) k2) s.
Proof. unfold bind. destruct (c s) as [[a | |] s']; reflexivity. Qed.

Lemma bind_put (s' : S) (k : unit -> exec S B) (s : S) :
  bind (put s') k s = k tt s'.
Proof. reflexivity. Qed.

Lemma bind_SIZE_CHECK_true (cond : bool) (k : unit -> exec S B) (s : S) :
  cond = true -> bind (SIZE_CHECK cond) k s = k tt s.
Proof. intros ->. reflexivity. Qed.

Lemma bind_SIZE_CHECK_false (cond : bool) (k : unit -> exec S B) (s : S) :
  cond = false -> bind (SIZE_CHECK cond) k s = (Aborted, s).
Proof. intros ->. reflexivity. Qed.

Lemma bind_subrange_inside (v : list A) (start stop : nat)
  (k : list A -> exec S B) (s : S) :
  (start <= stop <= length v)%nat ->
  bind (subrange v start stop) k s = k (take (stop - start)%nat (drop start v)) s.
Proof.
  intros [H1 H2]. unfold subrange, bind, SIZE_CHECK, ret.
  apply Nat.leb_le in H1, H2. rewrite H1, H2. reflexivity.
Qed.

Lemma bind_subrange_outside (v : list A) (start stop : nat)
  (k : list A -> exec S B) (s : S) :
  (length v < stop)%nat ->
  bind (subrange v start stop) k s = (Aborted, s).
Proof.
  intros H. unfold subrange, bind, SIZE_CHECK, abort.
  apply Nat.leb_gt in H. rewrite H, andb_false_r. reflexivity.
Qed.

Lemma bind_noalias_assign_same_size (target e : list A)
  (k : list A -> exec S B) (s : S) :
  length target = length e ->
  bind (noalias_assign target e) k s = k e s.
Proof.
  intros H. unfold noalias_assign, bind, SIZE_CHECK, ret.
  apply Nat.eqb_eq in H. rewrite H. reflexivity.
Qed.

Lemma bind_noalias_assign_other_size (target e : list A)
  (k : list A -> exec S B) (s : S) :
  length target <> length e ->
  bind (noalias_assign target e) k s = (Aborted, s).
Proof.
  intros H. unfold noalias_assign, bind, SIZE_CHECK, abort.
  apply Nat.eqb_neq in H. rewrite H. reflexivity.
Qed.

End ExecEquations.

(** ** The Normalizer's parameters *)

Section Parameters.

Context {T : Type}.

Implicit Types (self : Normalizer T) (newParameters : list T).

Lemma bind_set_m_A {B : Type} (v : list T) (k : unit -> exec (Normalizer T) B)
  self :
  bind (set_m_A v) k self =
  k tt {| m_A := v; m_b := m_b self; m_hasOffset := m_hasOffset self |}.
Proof. reflexivity. Qed.

(** The first half of [setParameterVector]: on a vector of the right
    length the diagonal is overwritten by its first [dim] entries and the
    run goes on to the offset. *)
Lemma setParameterVector_diagonal self newParameters :
  length newParameters = numberOfParameters self ->
  setParameterVector newParameters self =
  (let self' := {| m_A := take (length (m_A self)) newParameters;
                   m_b := m_b self; m_hasOffset := m_hasOffset self |} in
   if m_hasOffset self then
     (b <- subrange newParameters (length (m_A self)) (2 * length (m_A self)) ;;
      b' <- noalias_assign (m_b self) b ;;
      set_m_b b')%exec self'
   else (Done tt, self')).
Proof.
  intros Hlen. unfold setParameterVector.
  rewrite bind_get.
  rewrite bind_SIZE_CHECK_true by (apply Nat.eqb_eq; exact Hlen).
  assert (length (m_A self) <= length newParameters)%nat as Hdim.
  { rewrite Hlen. unfold numberOfParameters. destruct (m_hasOffset self); lia. }
  rewrite bind_subrange_inside by lia.
  rewrite drop_0, Nat.sub_0_r.
  rewrite bind_noalias_assign_same_size by (rewrite length_take; lia).
  rewrite bind_set_m_A, bind_get. unfold hasOffset. simpl.
  destruct (m_hasOffset self); reflexivity.
Qed.

(** The whole of [setParameterVector] on a vector of the right length. *)
Lemma setParameterVector_run self newParameters :
  length newParameters = numberOfParameters self ->
  setParameterVector newParameters self =
  (let dim := length (m_A self) in
   if m_hasOffset self then
     if decide (length (m_b self) = dim) then
       (Done tt, {| m_A := take dim newParameters;
                    m_b := drop dim newParameters;
                    m_hasOffset := true |})
     else
       (Aborted, {| m_A := take dim newParameters;
                    m_b := m_b self;
                    m_hasOffset := true |})
   else
     (Done tt, {| m_A := take dim newParameters;
                  m_b := m_b self;
                  m_hasOffset := false |})).
Proof.
  intros Hlen. rewrite setParameterVector_diagonal by exact Hlen.
  unfold numberOfParameters in Hlen. cbv zeta.
  destruct (m_hasOffset self); [| reflexivity].
  destruct (Nat.lt_ge_cases (length (m_b self)) (length (m_A self))) as [Hlt | Hge].
  - rewrite bind_subrange_outside by lia.
    destruct (decide _) as [Heq | _]; [lia | reflexivity].
  - rewrite bind_subrange_inside by lia.
    destruct (decide (length (m_b self) = length (m_A self))) as [Heq | Hne].
    + rewrite bind_noalias_assign_same_size
        by (rewrite length_take, length_drop; simpl; lia).
      unfold set_m_b. simpl.
      rewrite (take_ge (drop _ _)) by (rewrite length_drop; lia).
      reflexivity.
    + rewrite bind_noalias_assign_other_size
        by (rewrite length_take, length_drop; simpl; lia).
      reflexivity.
Qed.

(** C8. For every Normalizer model, [parameterVector()] has
    [numberOfParameters()] entries (the diagonal's, plus the offset's when
    [hasOffset()]), and [setParameterVector(parameterVector())] leaves the
    diagonal, the offset and the flag as they were; the call runs to its end
    exactly when the model has no offset or an offset of the diagonal's
    size. *)
Theorem parameterVector_round_trip self :
  length (parameterVector self) = numberOfParameters self /\
  (hasOffset self = true ->
   numberOfParameters self = (length (diagonal self) + length (offset self))%nat) /\
  (hasOffset self = false -> numberOfParameters self = length (diagonal self)) /\
  snd (setParameterVector (parameterVector self) self) = self /\
  (fst (setParameterVector (parameterVector self) self) = Done tt <->
   hasOffset self = false \/ length (offset self) = length (diagonal self)).
Proof.
  assert (length (parameterVector self) = numberOfParameters self) as Hlen.
  { unfold parameterVector, numberOfParameters, hasOffset.
    destruct (m_hasOffset self); [apply length_app | reflexivity]. }
  split; [exact Hlen |].
  split; [unfold numberOfParameters, hasOffset, diagonal, offset; intros ->; reflexivity |].
  split; [unfold numberOfParameters, hasOffset, diagonal, offset; intros ->; reflexivity |].
  rewrite (setParameterVector_run self (parameterVector self) Hlen).
  unfold parameterVector, hasOffset, diagonal, offset. cbv zeta.
  destruct self as [A b [|]]; simpl.
  - rewrite take_app_length, drop_app_length.
    destruct (decide (length b = length A)) as [Heq | Hne]; simpl.
    + split; [reflexivity |]. split; auto.
    + split; [reflexivity |]. split; [discriminate |].
      intros [Hf | Heq]; [discriminate | contradiction].
  - rewrite firstn_all. split; [reflexivity |]. split; auto.
Qed.

(** C9. On a new parameter vector of [numberOfParameters()] entries,
    [setParameterVector] overwrites the diagonal and, with [hasOffset()],
    the offset, and nothing else: the flag, and with it [inputSize()],
    [outputSize()] and [numberOfParameters()], is as before, and without
    [hasOffset()] the offset vector is as before. *)
Theorem setParameterVector_frame self newParameters :
  length newParameters = numberOfParameters self ->
  hasOffset (snd (setParameterVector newParameters self)) = hasOffset self /\
  inputSize (snd (setParameterVector newParameters self)) = inputSize self /\
  outputSize (snd (setParameterVector newParameters self)) = outputSize self /\
  numberOfParameters (snd (setParameterVector newParameters self))
  = numberOfParameters self /\
  diagonal (snd (setParameterVector newParameters self))
  = take (inputSize self) newParameters /\
  (hasOffset self = false ->
   fst (setParameterVector newParameters self) = Done tt /\
   offset (snd (setParameterVector newParameters self)) = offset self) /\
  (hasOffset self = true ->
   length (offset self) = length (diagonal self) ->
   fst (setParameterVector newParameters self) = Done tt /\
   offset (snd (setParameterVector newParameters self))
   = drop (inputSize self) newParameters).
Proof.
  intros Hlen.
  rewrite (setParameterVector_run self newParameters Hlen).
  unfold hasOffset, inputSize, outputSize, diagonal, offset,
    numberOfParameters in *.
  cbv zeta.
  destruct self as [A b [|]]; simpl in *.
  - assert (length (take (length A) newParameters) = length A) as HA
      by (rewrite length_take; lia).
    destruct (decide (length b = length A)) as [Heq | Hne]; simpl.
    + rewrite HA, length_drop.
      repeat split; try reflexivity; try lia; discriminate.
    + rewrite HA.
      repeat split; try reflexivity; try discriminate; contradiction.
  - assert (length (take (length A) newParameters) = length A) as HA
      by (rewrite length_take; lia).
    rewrite HA. repeat split; try reflexivity; discriminate.
Qed.

End Parameters.

Lemma setParameterVector_frame_witness :
  let self := Normalizer_of_diagonal_and_vector [1; 2]%Z [0; 0]%Z in
  let newParameters := [3; 4; 5; 6]%Z in
  hasOffset (snd (setParameterVector newParameters self)) = hasOffset self /\
  inputSize (snd (setParameterVector newParameters self)) = inputSize self /\
  outputSize (snd (setParameterVector newParameters self)) = outputSize self /\
  numberOfParameters (snd (setParameterVector newParameters self))
  = numberOfParameters self /\
  diagonal (snd (setParameterVector newParameters self))
  = take (inputSize self) newParameters /\
  (hasOffset self = false ->
   fst (setParameterVector newParameters self) = Done tt /\
   offset (snd (setParameterVector newParameters self)) = offset self) /\
  (hasOffset self = true ->
   length (offset self) = length (diagonal self) ->
   fst (setParameterVector newParameters self) = Done tt /\
   offset (snd (setParameterVector newParameters self))
   = drop (inputSize self) newParameters).
Proof.
  intros self newParameters.
  apply (setParameterVector_frame self newParameters).
  reflexivity.
Defined.

(** ** Evaluation of the Normalizer *)

Section Evaluation.

Context {T : Type} `{Scalar T}.

Implicit Types (self : Normalizer T) (input output : matrix T).

Lemma zip_with_replicate_r {X Y Z : Type} (f : X -> Y -> Z) (l : list X) (y : Y) :
  zip_with f l (replicate (length l) y) = map (fun x => f x y) l.
Proof.
  induction l as [| x l IH]; simpl; [reflexivity |].
  rewrite IH. reflexivity.
Qed.

Lemma bind_matrix_times {S B : Type} (a b : matrix T)
  (k : matrix T -> exec S B) (s : S) :
  same_shape a b = true ->
  bind (matrix_times a b) k s = k (elementwise s_mul a b) s.
Proof.
  intros Hshape. unfold matrix_times, bind, SIZE_CHECK, ret.
  rewrite Hshape. reflexivity.
Qed.

(** The first statement of [eval] compares the number of points of the batch
    with the model's dimension: any other number of points stops there. *)
Lemma eval_checks_number_of_points self input output :
  msize1 input <> length (m_A self) ->
  eval self input output = (Aborted, output).
Proof.
  intros Hne. unfold eval.
  rewrite bind_SIZE_CHECK_false by (apply Nat.eqb_neq; exact Hne).
  reflexivity.
Qed.

(** Where the check lets a batch through, [eval] computes the affine map on
    every row. *)
Lemma eval_on_accepted_batch self input output :
  msize1 input = length (m_A self) ->
  msize2 input = length (m_A self) ->
  (hasOffset self = true -> length (m_b self) = length (m_A self)) ->
  eval self input output =
  (Done tt, {| elements := map (affine_row self) (elements input);
               msize2 := msize2 input |}).
Proof.
  intros H1 H2 Hb. unfold eval.
  rewrite bind_SIZE_CHECK_true by (apply Nat.eqb_eq; exact H1).
  unfold resize. rewrite bind_put.
  rewrite bind_matrix_times.
  2:{ unfold same_shape, repeat, msize1. simpl.
      rewrite length_replicate, H2, !Nat.eqb_refl. reflexivity. }
  unfold noalias_assign_matrix.
  rewrite bind_assoc, bind_get, bind_assoc.
  rewrite bind_SIZE_CHECK_true.
  2:{ unfold same_shape, elementwise, msize1. simpl.
      rewrite length_replicate, length_zip_with, length_replicate.
      rewrite Nat.min_id, !Nat.eqb_refl. reflexivity. }
  rewrite bind_put.
  unfold elementwise, repeat, msize1, affine_row. simpl.
  rewrite zip_with_replicate_r.
  destruct (hasOffset self) eqn:Hoff; [| reflexivity].
  unfold noalias_plus_assign_matrix.
  rewrite bind_get.
  rewrite bind_SIZE_CHECK_true.
  2:{ unfold same_shape, msize1. simpl.
      rewrite length_map, length_replicate, H2, Hb by reflexivity.
      rewrite !Nat.eqb_refl. reflexivity. }
  unfold put, elementwise. simpl.
  rewrite <- (length_map (fun x => zip_with s_mul x (m_A self))) at 1.
  rewrite zip_with_replicate_r, map_map. reflexivity.
Qed.

End Evaluation.

(** C7 (the code departs from it). A Normalizer with diagonal [2,3] and no
    offset, on a batch of three points of dimension 2: the per-point
    dimension is the model's, and [eval] stops at its first size check,
    which compares the number of points (3) with the dimension (2), leaving
    the output untouched; the claimed output is [[2,3],[2,3],[2,3]]. *)
Theorem eval_aborts_on_three_points (output : matrix float) :
  let self := Normalizer_of_diagonal [2; 3]%float in
  let input := {| elements := [[1; 1]; [1; 1]; [1; 1]]%float; msize2 := 2 |} in
  msize2 input = inputSize self /\
  well_shaped input /\
  eval self input output = (Aborted, output) /\
  map (affine_row self) (elements input) = [[2; 3]; [2; 3]; [2; 3]]%float.
Proof.
  cbv zeta. split; [reflexivity |].
  split; [repeat constructor |].
  split; [reflexivity |].
  vm_compute. reflexivity.
Qed.

(** * Further properties of the binding *)

(** The typed overloads, read backwards: an overload is found only for two
    buffers of one element type, and it is that type's routine. *)
Lemma trmv_overload_found (T1 T2 : value_type) (r : cblas_routine) :
  trmv_overload T1 T2 = Some r ->
  T1 = T2 /\
  In (T1, r)
     [(cpp_float, cblas_strmv); (cpp_double, cblas_dtrmv);
      (std_complex cpp_float, cblas_ctrmv);
      (std_complex cpp_double, cblas_ztrmv)].
Proof.
  destruct T1 as [ | | [ | | ? | ? ] | ? ]; try discriminate;
    destruct T2 as [ | | [ | | ? | ? ] | ? ]; try discriminate;
    intros [= <-]; split; simpl; auto.
Qed.

Lemma to_int_range (z : Z) : - 2 ^ 31 <= to_int z < 2 ^ 31.
Proof.
  unfold to_int.
  pose proof (Z.mod_pos_bound z (2 ^ 32) ltac:(lia)) as Hr.
  cbv zeta. destruct (Z.ltb_spec (z mod 2 ^ 32) (2 ^ 31)); lia.
Qed.

(** X1. The trait does not depend on the order in which the two operand
    types are given, nor on their orientations. *)
Theorem has_optimized_trmv_symmetric (M1 M2 : container_type)
  (o1 o2 : orientation) :
  has_optimized_trmv M1 M2 = has_optimized_trmv M2 M1 /\
  has_optimized_trmv M1 M2 =
  has_optimized_trmv
    {| storage_tag_of := storage_tag_of M1; value_type_of := value_type_of M1;
       orientation_of := o1 |}
    {| storage_tag_of := storage_tag_of M2; value_type_of := value_type_of M2;
       orientation_of := o2 |}.
Proof.
  split; [| reflexivity].
  unfold has_optimized_trmv.
  apply eq_true_iff_eq. rewrite !optimized_trmv_detail_true.
  split; intros (H1 & H2 & H3 & H4); repeat split; try assumption;
    congruence.
Qed.

(** X2. An overload of the typed [trmv] exists exactly for two buffers of
    the same element type among the four, and is that type's entry point;
    the template adapter instantiates exactly for the pairs of element types
    the trait accepts on dense storage. *)
Theorem trmv_instantiates_where_trait_holds {heap : Type}
  (native : backend heap) (upper unit_ : bool)
  (A : matrix_expression) (x : vector_expression) :
  (forall (T1 T2 : value_type) (r : cblas_routine),
      trmv_overload T1 T2 = Some r <->
      T1 = T2 /\
      In (T1, r)
         [(cpp_float, cblas_strmv); (cpp_double, cblas_dtrmv);
          (std_complex cpp_float, cblas_ctrmv);
          (std_complex cpp_double, cblas_ztrmv)]) /\
  ((exists body, trmv native upper unit_ A x = Some body) <->
   optimized_trmv_detail dense_tag dense_tag
     (value_type_of (MatA A)) (value_type_of (VectorX x)) = true).
Proof.
  split.
  - intros T1 T2 r. split; [apply trmv_overload_found |].
    intros [<- Hin]. apply trmv_overload_table. exact Hin.
  - unfold trmv.
    destruct (trmv_overload _ _) as [r |] eqn:Hr.
    + apply trmv_overload_found in Hr. destruct Hr as [HT Hin].
      split; [intros _ | intros _; eexists; reflexivity].
      apply optimized_trmv_detail_true. repeat split; [exact HT |].
      simpl in Hin. unfold blas_value_types. simpl.
      destruct Hin as [[= <- _] | [[= <- _] | [[= <- _] | [[= <- _] | []]]]];
        auto.
    + split; [intros [body [=]] |].
      intros Htrue. apply optimized_trmv_detail_true in Htrue.
      destruct Htrue as (_ & _ & HT & Hin).
      rewrite <- HT in Hr. simpl in Hin.
      destruct Hin as [Hin | [Hin | [Hin | [Hin | []]]]];
        rewrite <- Hin in Hr; discriminate.
Qed.

(** X3. For operands that pass the shape checks, the dimension the native
    routine receives always fits an int, and it is the matrix dimension
    exactly when that is at most 2^31 - 1; a dimension that is a multiple of
    2^32 arrives as 0. *)
Theorem trmv_dimension_exact_iff {heap : Type} (native : backend heap)
  (upper unit_ : bool) (A : matrix_expression) (x : vector_expression)
  (body : exec (world heap) unit) (w : world heap) :
  trmv native upper unit_ A x = Some body ->
  size x = size2 A -> size2 A = size1 A -> 0 <= size1 A ->
  exists c,
    native_calls (snd (body w)) = native_calls w ++ [c] /\
    - 2 ^ 31 <= call_N c < 2 ^ 31 /\
    (call_N c = size1 A <-> size1 A <= 2 ^ 31 - 1) /\
    (size1 A mod 2 ^ 32 = 0 -> call_N c = 0).
Proof.
  intros Hbody Hx HA Hn.
  pose proof Hbody as Hsome. unfold trmv in Hsome.
  destruct (trmv_overload _ _) as [r |] eqn:Hr; [| discriminate].
  destruct (trmv_shape_ok native upper unit_ A x r Hr Hx HA)
    as (body' & Hbody' & Hrun).
  assert (body' = body) as -> by congruence.
  rewrite Hrun. eexists.
  split; [apply call_native_logs |].
  simpl. split; [apply to_int_range |].
  split.
  - split.
    + intros Heq. pose proof (to_int_range (size1 A)). lia.
    + intros Hle. apply to_int_small. unfold INT_MAX. lia.
  - intros Hmod. unfold to_int. rewrite Hmod. reflexivity.
Qed.

Lemma trmv_dimension_exact_iff_witness :
  exists body,
    trmv cblas_trmv true false
      (square_matrix row_major (2 ^ 32)) (dense_vector 0 (2 ^ 32))
    = Some body /\
    exists c,
      native_calls (snd (body (fresh memory_row_major))) = [] ++ [c] /\
      - 2 ^ 31 <= call_N c < 2 ^ 31 /\
      (call_N c = 2 ^ 32 <-> 2 ^ 32 <= 2 ^ 31 - 1) /\
      (2 ^ 32 mod 2 ^ 32 = 0 -> call_N c = 0).
Proof.
  eexists. split; [reflexivity |].
  apply (trmv_dimension_exact_iff cblas_trmv true false
           (square_matrix row_major (2 ^ 32)) (dense_vector 0 (2 ^ 32))).
  - reflexivity.
  - reflexivity.
  - reflexivity.
  - simpl. lia.
Defined.

(** * Further properties of the Normalizer *)

Section MoreParameters.

Context {T : Type}.

Implicit Types (self : Normalizer T) (p q : list T).


(** X4. After [setParameterVector(p)] on a model whose offset fits, with
    [p] of [numberOfParameters()] entries, the call has run to its end and
    [parameterVector()] returns [p]. *)
Theorem parameterVector_after_setParameterVector self p :
  length p = numberOfParameters self ->
  offset_fits self ->
  fst (setParameterVector p self) = Done tt /\
  parameterVector (snd (setParameterVector p self)) = p.
Proof.
  intros Hlen Hfit.
  rewrite (setParameterVector_run self p Hlen). cbv zeta.
  unfold offset_fits, hasOffset, offset, diagonal, numberOfParameters in *.
  destruct (m_hasOffset self) eqn:Hflag.
  - destruct (decide _) as [_ | Hne]; [| specialize (Hfit eq_refl); contradiction].
    split; [reflexivity |]. unfold parameterVector, hasOffset. simpl.
    apply take_drop.
  - split; [reflexivity |]. unfold parameterVector, hasOffset. simpl.
    apply take_ge. lia.
Qed.

(** X5. A vector whose length is not [numberOfParameters()] is refused by
    the first size check: the call aborts and the model is as before. *)
Theorem setParameterVector_wrong_length self p :
  length p <> numberOfParameters self ->
  setParameterVector p self = (Aborted, self).
Proof.
  intros Hlen. unfold setParameterVector. rewrite bind_get.
  rewrite bind_SIZE_CHECK_false by (apply Nat.eqb_neq; exact Hlen).
  reflexivity.
Qed.

(** X6. Of two parameter vectors of the right length set one after the
    other, only the second shows: outcome and model are those of setting the
    second alone, on every model. *)
Theorem setParameterVector_last_wins self p q :
  length p = numberOfParameters self ->
  length q = numberOfParameters self ->
  setParameterVector q (snd (setParameterVector p self)) =
  setParameterVector q self.
Proof.
  intros Hp Hq.
  rewrite (setParameterVector_run self p Hp).
  rewrite (setParameterVector_run self q Hq).
  unfold numberOfParameters in Hp, Hq. cbv zeta.
  assert (forall v : list T, (length (m_A self) <= length v)%nat ->
            length (take (length (m_A self)) v) = length (m_A self)) as Htake
    by (intros v Hv; rewrite length_take; lia).
  destruct (m_hasOffset self) eqn:Hflag.
  - destruct (decide _) as [Heq | Hne]; simpl.
    + rewrite setParameterVector_run
        by (unfold numberOfParameters; simpl;
            rewrite Htake, length_drop by lia; lia).
      simpl. rewrite Htake, length_drop by lia.
      destruct (decide _) as [_ | Hne]; [reflexivity | lia].
    + rewrite setParameterVector_run
        by (unfold numberOfParameters; simpl; rewrite Htake by lia; lia).
      simpl. rewrite Htake by lia.
      destruct (decide _) as [Heq | _]; [contradiction | reflexivity].
  - simpl.
    rewrite setParameterVector_run
      by (unfold numberOfParameters; simpl; rewrite Htake by lia; lia).
    simpl. rewrite Htake by lia. reflexivity.
Qed.

(** X7. The parameter vector tells two models of the same structure apart:
    with the same flag and dimension, equal parameter vectors mean equal
    diagonals and, with an offset, equal offsets. *)
Theorem parameterVector_injective (self other : Normalizer T) :
  hasOffset self = hasOffset other ->
  inputSize self = inputSize other ->
  parameterVector self = parameterVector other ->
  diagonal self = diagonal other /\
  (hasOffset self = true -> offset self = offset other).
Proof.
  unfold parameterVector, hasOffset, inputSize, diagonal, offset.
  intros Hflag Hdim Hpv. rewrite <- Hflag in Hpv.
  destruct (m_hasOffset self).
  - apply app_inj_1 in Hpv; [| exact Hdim].
    destruct Hpv as [HA Hb]. split; [exact HA | intros _; exact Hb].
  - split; [exact Hpv | discriminate].
Qed.


(** X9. [setStructure(diagonal)] switches the offset off and keeps the
    offset vector: whatever the model was before, a following
    [setParameterVector(p)] with as many entries as the diagonal runs to its
    end and leaves [p] as diagonal, the old offset vector and no offset. *)
Theorem setStructure_diagonal_then_set self (A : list T) p :
  length p = length A ->
  bind (setStructure_diagonal A) (fun _ => setParameterVector p) self =
  (Done tt, {| m_A := p; m_b := m_b self; m_hasOffset := false |}).
Proof.
  intros Hlen. unfold setStructure_diagonal.
  rewrite bind_assoc, bind_set_m_A. unfold bind at 1. simpl.
  rewrite setParameterVector_run by (unfold numberOfParameters; simpl; exact Hlen).
  simpl. rewrite take_ge by lia. reflexivity.
Qed.

(** X10. After [setStructure(dimension, hasOffset)], for any [resize] that
    returns a vector of the size asked for, the model takes every parameter
    vector of [dimension] entries (twice as many with an offset) and returns
    it from [parameterVector()]; its dimension is [dimension], and without
    offset the offset vector is not resized. *)
Theorem setStructure_dimension_then_set
  (resize_vector : nat -> list T -> list T) self
  (dimension : nat) (flag : bool) p :
  (forall n v, length (resize_vector n v) = n) ->
  length p = (if flag then 2 * dimension else dimension)%nat ->
  fst (bind (setStructure_dimension resize_vector dimension flag)
         (fun _ => setParameterVector p) self) = Done tt /\
  parameterVector
    (snd (bind (setStructure_dimension resize_vector dimension flag)
            (fun _ => setParameterVector p) self)) = p /\
  inputSize
    (snd (bind (setStructure_dimension resize_vector dimension flag)
            (fun _ => setParameterVector p) self)) = dimension /\
  hasOffset
    (snd (bind (setStructure_dimension resize_vector dimension flag)
            (fun _ => setParameterVector p) self)) = flag /\
  (flag = false ->
   offset
     (snd (bind (setStructure_dimension resize_vector dimension flag)
             (fun _ => setParameterVector p) self)) = offset self).
Proof.
  intros Hresize Hlen.
  assert (bind (setStructure_dimension resize_vector dimension flag)
            (fun _ => setParameterVector p) self =
          setParameterVector p
            {| m_A := resize_vector dimension (m_A self);
               m_b := if flag then resize_vector dimension (m_b self)
                      else m_b self;
               m_hasOffset := flag |}) as ->.
  { unfold setStructure_dimension.
    rewrite bind_assoc, bind_get, bind_assoc, bind_set_m_A.
    rewrite bind_assoc. unfold bind at 1. simpl.
    destruct flag; reflexivity. }
  rewrite setParameterVector_run
    by (unfold numberOfParameters; simpl; destruct flag;
        rewrite !Hresize; lia).
  unfold parameterVector, inputSize, hasOffset, offset. simpl.
  rewrite Hresize.
  destruct flag; simpl.
  - rewrite Hresize.
    destruct (decide _) as [_ | Hne]; [| contradiction]. simpl.
    repeat split; try discriminate.
    + apply take_drop.
    + rewrite length_take. lia.
  - repeat split.
    + apply take_ge. lia.
    + rewrite length_take. lia.
Qed.

End MoreParameters.

Lemma parameterVector_after_setParameterVector_witness :
  fst (setParameterVector [3; 4; 5; 6]%Z
         (Normalizer_of_diagonal_and_vector [1; 2]%Z [0; 0]%Z)) = Done tt /\
  parameterVector
    (snd (setParameterVector [3; 4; 5; 6]%Z
            (Normalizer_of_diagonal_and_vector [1; 2]%Z [0; 0]%Z)))
  = [3; 4; 5; 6]%Z.
Proof.
  apply (parameterVector_after_setParameterVector
           (Normalizer_of_diagonal_and_vector [1; 2]%Z [0; 0]%Z)
           [3; 4; 5; 6]%Z).
  - reflexivity.
  - intros _. reflexivity.
Defined.

Lemma setParameterVector_wrong_length_witness :
  setParameterVector [3; 4; 5]%Z
    (Normalizer_of_diagonal_and_vector [1; 2]%Z [0; 0]%Z)
  = (Aborted, Normalizer_of_diagonal_and_vector [1; 2]%Z [0; 0]%Z).
Proof.
  apply (setParameterVector_wrong_length
           (Normalizer_of_diagonal_and_vector [1; 2]%Z [0; 0]%Z) [3; 4; 5]%Z).
  intros Heq. vm_compute in Heq. discriminate Heq.
Defined.

Lemma setParameterVector_last_wins_witness :
  setParameterVector [7; 8; 9]%Z
    (snd (setParameterVector [3; 4; 5]%Z
            (Normalizer_of_diagonal_and_vector [1]%Z [0; 0]%Z)))
  = setParameterVector [7; 8; 9]%Z
      (Normalizer_of_diagonal_and_vector [1]%Z [0; 0]%Z).
Proof.
  apply (setParameterVector_last_wins
           (Normalizer_of_diagonal_and_vector [1]%Z [0; 0]%Z)
           [3; 4; 5]%Z [7; 8; 9]%Z).
  - reflexivity.
  - reflexivity.
Defined.

Lemma parameterVector_injective_witness :
  diagonal (Normalizer_of_diagonal_and_vector [1; 2]%Z [3; 4]%Z)
  = diagonal (Normalizer_copy (Normalizer_of_diagonal_and_vector [1; 2]%Z [3; 4]%Z)) /\
  (hasOffset (Normalizer_of_diagonal_and_vector [1; 2]%Z [3; 4]%Z) = true ->
   offset (Normalizer_of_diagonal_and_vector [1; 2]%Z [3; 4]%Z)
   = offset (Normalizer_copy (Normalizer_of_diagonal_and_vector [1; 2]%Z [3; 4]%Z))).
Proof.
  apply (parameterVector_injective
           (Normalizer_of_diagonal_and_vector [1; 2]%Z [3; 4]%Z)
           (Normalizer_copy (Normalizer_of_diagonal_and_vector [1; 2]%Z [3; 4]%Z))).
  - reflexivity.
  - reflexivity.
  - reflexivity.
Defined.

Lemma setStructure_diagonal_then_set_witness :
  bind (setStructure_diagonal [1; 2]%Z) (fun _ => setParameterVector [5; 6]%Z)
    (Normalizer_of_diagonal_and_vector [9]%Z [7; 7; 7]%Z)
  = (Done tt, {| m_A := [5; 6]%Z; m_b := [7; 7; 7]%Z; m_hasOffset := false |}).
Proof.
  apply (setStructure_diagonal_then_set
           (Normalizer_of_diagonal_and_vector [9]%Z [7; 7; 7]%Z)
           [1; 2]%Z [5; 6]%Z).
  reflexivity.
Defined.

Lemma setStructure_dimension_then_set_witness :
  let run :=
    bind (setStructure_dimension (resize_keeping 0%Z) 2%nat true)
      (fun _ => setParameterVector [5; 6; 7; 8]%Z)
      (Normalizer_of_diagonal [9]%Z) in
  fst run = Done tt /\
  parameterVector (snd run) = [5; 6; 7; 8]%Z /\
  inputSize (snd run) = 2%nat /\
  hasOffset (snd run) = true /\
  (true = false -> offset (snd run) = offset (Normalizer_of_diagonal [9]%Z)).
Proof.
  apply (setStructure_dimension_then_set (resize_keeping 0%Z)
           (Normalizer_of_diagonal [9]%Z) 2%nat true [5; 6; 7; 8]%Z).
  - intros n v. unfold resize_keeping.
    rewrite length_app, length_take, length_replicate. lia.
  - reflexivity.
Defined.

Section MoreEvaluation.

Context {T : Type} `{Scalar T}.

Implicit Types (self : Normalizer T) (input output : matrix T).

(** The diagonal applied to every row of a batch. *)
Let scaled self input : matrix T :=
  {| elements := map (fun row => zip_with s_mul row (m_A self)) (elements input);
     msize2 := msize2 input |}.

Lemma bind_matrix_times_other_shape {S B : Type} (a b : matrix T)
  (k : matrix T -> exec S B) (s : S) :
  same_shape a b = false ->
  bind (matrix_times a b) k s = (Aborted, s).
Proof.
  intros Hshape. unfold matrix_times, bind, SIZE_CHECK, abort.
  rewrite Hshape. reflexivity.
Qed.

(** On a batch the first two checks let through, [eval] has written the
    scaled rows when it turns to the offset. *)
Lemma eval_up_to_offset self input output :
  msize1 input = length (m_A self) ->
  msize2 input = length (m_A self) ->
  eval self input output =
  (if hasOffset self then
     noalias_plus_assign_matrix (repeat (m_b self) (msize1 input))
   else ret tt) (scaled self input).
Proof.
  intros H1 H2. unfold eval.
  rewrite bind_SIZE_CHECK_true by (apply Nat.eqb_eq; exact H1).
  unfold resize. rewrite bind_put.
  rewrite bind_matrix_times.
  2:{ unfold same_shape, repeat, msize1. simpl.
      rewrite length_replicate, H2, !Nat.eqb_refl. reflexivity. }
  unfold noalias_assign_matrix.
  rewrite bind_assoc, bind_get, bind_assoc.
  rewrite bind_SIZE_CHECK_true.
  2:{ unfold same_shape, elementwise, msize1. simpl.
      rewrite length_replicate, length_zip_with, length_replicate.
      rewrite Nat.min_id, !Nat.eqb_refl. reflexivity. }
  rewrite bind_put.
  unfold elementwise, repeat, msize1, scaled. simpl.
  rewrite zip_with_replicate_r. reflexivity.
Qed.

Lemma same_shape_scaled_offset self input :
  msize2 input = length (m_A self) ->
  same_shape (scaled self input) (repeat (m_b self) (msize1 input))
  = (length (m_A self) =? length (m_b self))%nat.
Proof.
  intros H2. unfold same_shape, scaled, repeat, msize1. simpl.
  rewrite length_map, length_replicate, Nat.eqb_refl, H2. reflexivity.
Qed.

(** X11. [eval] runs to its end exactly when the batch has as many points
    as the model has dimensions, points of that dimension, and the offset,
    if there is one, has the diagonal's size; every other call ends in the
    abort of a size check. The second form of [eval] ignores its state
    argument. *)
Theorem eval_completes_iff self input output :
  (fst (eval self input output) = Done tt <->
   msize1 input = length (diagonal self) /\
   msize2 input = length (diagonal self) /\
   offset_fits self) /\
  (fst (eval self input output) = Done tt \/
   fst (eval self input output) = Aborted) /\
  eval_with_state self input tt output = eval self input output.
Proof.
  split; [| split; [| reflexivity]].
  - unfold offset_fits, diagonal, offset.
    destruct (Nat.eq_dec (msize1 input) (length (m_A self))) as [H1 | H1].
    2:{ rewrite eval_checks_number_of_points by exact H1. simpl.
        split; [discriminate | intros [? _]; contradiction]. }
    destruct (Nat.eq_dec (msize2 input) (length (m_A self))) as [H2 | H2].
    + rewrite (eval_up_to_offset self input output H1 H2).
      destruct (hasOffset self).
      2:{ simpl. split; [| reflexivity].
          intros _. repeat split; [exact H1 | exact H2 | discriminate]. }
      unfold noalias_plus_assign_matrix. rewrite bind_get.
      destruct (Nat.eq_dec (length (m_A self)) (length (m_b self))) as [Hb | Hb].
      * rewrite bind_SIZE_CHECK_true
          by (rewrite same_shape_scaled_offset by exact H2;
              apply Nat.eqb_eq; exact Hb).
        simpl. split; [| reflexivity].
        intros _. repeat split; [exact H1 | exact H2 |].
        intros _. symmetry. exact Hb.
      * rewrite bind_SIZE_CHECK_false
          by (rewrite same_shape_scaled_offset by exact H2;
              apply Nat.eqb_neq; exact Hb).
        simpl. split; [discriminate |].
        intros (_ & _ & Hfit). specialize (Hfit eq_refl). congruence.
    + unfold eval.
      rewrite bind_SIZE_CHECK_true by (apply Nat.eqb_eq; exact H1).
      unfold resize. rewrite bind_put.
      rewrite bind_matrix_times_other_shape.
      2:{ unfold same_shape, repeat. simpl.
          apply andb_false_iff. right. apply Nat.eqb_neq. exact H2. }
      simpl. split; [discriminate | intros (_ & ? & _); contradiction].
  - cbv [eval bind SIZE_CHECK resize matrix_times noalias_assign_matrix
           noalias_plus_assign_matrix ret abort put get].
    repeat match goal with
           | |- context [if ?c then _ else _] => destruct c; simpl
           end; auto.
Qed.

(** X12. With an offset whose size is not the diagonal's, on a batch that
    passes the other checks, [eval] aborts at the offset only after it has
    overwritten the output with the scaled rows. *)
Theorem eval_offset_misfit self input output :
  hasOffset self = true ->
  msize1 input = length (diagonal self) ->
  msize2 input = length (diagonal self) ->
  length (offset self) <> length (diagonal self) ->
  eval self input output =
  (Aborted,
   {| elements := map (fun row => zip_with s_mul row (diagonal self))
                    (elements input);
      msize2 := msize2 input |}).
Proof.
  unfold diagonal, offset. intros Hflag H1 H2 Hb.
  rewrite (eval_up_to_offset self input output H1 H2), Hflag.
  unfold noalias_plus_assign_matrix. rewrite bind_get.
  rewrite bind_SIZE_CHECK_false
    by (rewrite same_shape_scaled_offset by exact H2;
        apply Nat.eqb_neq; congruence).
  reflexivity.
Qed.

(** X13. On a batch [eval] accepts, the output is the input's shape and
    holds A x + b for every row x (A x without offset), whatever it held
    before. *)
Theorem eval_square_batch self input output :
  msize1 input = length (diagonal self) ->
  msize2 input = length (diagonal self) ->
  offset_fits self ->
  fst (eval self input output) = Done tt /\
  elements (snd (eval self input output))
  = map (affine_row self) (elements input) /\
  msize1 (snd (eval self input output)) = msize1 input /\
  msize2 (snd (eval self input output)) = msize2 input.
Proof.
  unfold diagonal, offset_fits, offset. intros H1 H2 Hfit.
  rewrite (eval_on_accepted_batch self input output H1 H2 Hfit).
  unfold msize1. simpl. rewrite length_map. repeat split.
Qed.

End MoreEvaluation.

Lemma eval_offset_misfit_witness :
  eval (Normalizer_of_diagonal_and_vector [2; 3]%Z [1]%Z)
    {| elements := [[1; 1]; [10; 20]]%Z; msize2 := 2 |}
    {| elements := []; msize2 := 0 |}
  = (Aborted, {| elements := [[2; 3]; [20; 60]]%Z; msize2 := 2 |}).
Proof.
  refine (eval_offset_misfit (Normalizer_of_diagonal_and_vector [2; 3]%Z [1]%Z)
            {| elements := [[1; 1]; [10; 20]]%Z; msize2 := 2 |}
            {| elements := []; msize2 := 0 |} _ _ _ _).
  - reflexivity.
  - reflexivity.
  - reflexivity.
  - intros Heq. vm_compute in Heq. discriminate Heq.
Defined.

Lemma eval_square_batch_witness :
  let self := Normalizer_of_diagonal_and_vector [2; 3]%float [1; 1]%float in
  let input := {| elements := [[1; 1]; [10; 20]]%float; msize2 := 2 |} in
  let output := {| elements := [[7]]%float; msize2 := 1 |} in
  fst (eval self input output) = Done tt /\
  elements (snd (eval self input output))
  = map (affine_row self) (elements input) /\
  msize1 (snd (eval self input output)) = msize1 input /\
  msize2 (snd (eval self input output)) = msize2 input.
Proof.
  intros self input output.
  apply (eval_square_batch self input output).
  - reflexivity.
  - reflexivity.
  - intros _. reflexivity.
Defined.

(** ** Persistence *)

Lemma write_appends {T : Type} (self : Normalizer T)
  (archive : list (archive_item T)) :
  write self archive =
  (Done tt,
   archive ++ [item_vector (m_A self); item_vector (m_b self);
               item_bool (m_hasOffset self)]).
Proof.
  unfold write, bind, save. simpl.
  rewrite <- !app_assoc. reflexivity.
Qed.

(** X14. [write] appends to the archive the diagonal, then the offset
    vector, then the flag. [read], on any model, of what [write] produced
    for a model ends normally with that model (the offset vector also when
    the offset is switched off) and leaves what follows in the archive, so
    that models written one after the other are read back in that order. On
    an archive cut after the two vectors [read] ends in the archive's
    exception with diagonal and offset vector already overwritten and the
    flag still the old one; on an empty archive nothing is overwritten. *)
Theorem read_after_write {T : Type} (self other : Normalizer T)
  (archive rest : list (archive_item T)) :
  write self archive =
  (Done tt,
   archive ++ [item_vector (diagonal self); item_vector (offset self);
               item_bool (hasOffset self)]) /\
  read (snd (write self []) ++ rest) other = (read_done, (self, rest)) /\
  read (snd (bind (write self) (fun _ => write other) [])) other
  = (read_done, (self, snd (write other []))) /\
  read (take 2 (snd (write self []))) other
  = (archive_exception,
     ({| m_A := diagonal self; m_b := offset self;
         m_hasOffset := hasOffset other |}, [])) /\
  read (take 1 (snd (write self []))) other
  = (archive_exception,
     ({| m_A := diagonal self; m_b := offset other;
         m_hasOffset := hasOffset other |}, [])) /\
  read [] other = (archive_exception, (other, [])).
Proof.
  unfold diagonal, offset, hasOffset.
  split; [apply write_appends |].
  split; [rewrite write_appends; destruct self; reflexivity |].
  split.
  - unfold bind. rewrite !write_appends. destruct self; reflexivity.
  - rewrite write_appends. repeat split.
Qed.
